(** * opencl_stub.c: link-time placeholders for the OpenCL entry points

    The translation unit [libs/recipes/llamacpp_android/opencl_stub.c]
    consists of one [#include <stdlib.h>] (declarations only) followed by 35
    external function definitions, each of the shape

      void NAME() {}

    that is: return type [void], an empty (unprototyped) parameter list and
    an empty compound statement as body.  The development below records each
    definition as data, gives function calls the usual block semantics over an
    arbitrary machine (state, values, statements), and derives the
    properties of the unit from the fact that no body holds a statement. *)

From Stdlib Require Import List String Bool.
Import ListNotations.
Open Scope string_scope.

(** ** Results of running code *)

Inductive res (A : Type) : Type :=
| OK (a : A)
| Error (msg : string).
Arguments OK {A} a.
Arguments Error {A} msg.

Definition is_OK {A : Type} (r : res A) : bool :=
  match r with OK _ => true | Error _ => false end.

(** How a statement ends: it runs to its end, or it executes a [return]
    (with or without an expression). *)
Inductive outcome (S V : Type) : Type :=
| Normal (s : S)
| Return (s : S) (v : option V).
Arguments Normal {S V} s.
Arguments Return {S V} s v.

(** Return types that a function definition may declare. *)
Inductive ctype : Type := Tvoid | Tint | Tpointer.

(** ** The machine

    Nothing in the unit fixes what a program state is or which statements
    exist, so both are left to the machine.  [State] is the whole program
    state (globals, heap, device handles, output produced so far).
    [bind_param] stores an argument into a declared parameter on entry. *)
Class Machine : Type := {
  State : Type;
  Value : Type;
  stmt : Type;
  exec_stmt : stmt -> State -> res (outcome State Value);
  bind_param : string -> Value -> State -> State
}.

Section Unit.
Context {mach : Machine}.

(** The state-and-error monad in which calls run. *)
Definition M (A : Type) : Type := State -> res (State * A).

Definition ret {A : Type} (a : A) : M A := fun s => OK (s, a).

Definition bind {A B : Type} (m : M A) (k : A -> M B) : M B :=
  fun s =>
    match m s with
    | OK (s', a) => k a s'
    | Error msg => Error msg
    end.

(** A function definition of the unit. *)
Record fundef : Type := {
  fn_name : string;
  fn_return : ctype;
  fn_params : list string;
  fn_body : list stmt
}.

(** [void name() {}] *)
Definition void_empty (name : string) : fundef :=
  {| fn_name := name; fn_return := Tvoid; fn_params := []; fn_body := [] |}.

Definition clBuildProgram : fundef := void_empty "clBuildProgram".
Definition clCreateBuffer : fundef := void_empty "clCreateBuffer".
Definition clCreateCommandQueue : fundef := void_empty "clCreateCommandQueue".
Definition clCreateContext : fundef := void_empty "clCreateContext".
Definition clCreateImage : fundef := void_empty "clCreateImage".
Definition clCreateKernel : fundef := void_empty "clCreateKernel".
Definition clCreateProgramWithSource : fundef := void_empty "clCreateProgramWithSource".
Definition clCreateSubBuffer : fundef := void_empty "clCreateSubBuffer".
Definition clEnqueueBarrierWithWaitList : fundef := void_empty "clEnqueueBarrierWithWaitList".
Definition clEnqueueCopyBuffer : fundef := void_empty "clEnqueueCopyBuffer".
Definition clEnqueueFillBuffer : fundef := void_empty "clEnqueueFillBuffer".
Definition clEnqueueMarkerWithWaitList : fundef := void_empty "clEnqueueMarkerWithWaitList".
Definition clEnqueueNDRangeKernel : fundef := void_empty "clEnqueueNDRangeKernel".
Definition clEnqueueReadBuffer : fundef := void_empty "clEnqueueReadBuffer".
Definition clEnqueueWriteBuffer : fundef := void_empty "clEnqueueWriteBuffer".
Definition clFinish : fundef := void_empty "clFinish".
Definition clFlush : fundef := void_empty "clFlush".
Definition clGetDeviceIDs : fundef := void_empty "clGetDeviceIDs".
Definition clGetDeviceInfo : fundef := void_empty "clGetDeviceInfo".
Definition clGetEventProfilingInfo : fundef := void_empty "clGetEventProfilingInfo".
Definition clGetKernelInfo : fundef := void_empty "clGetKernelInfo".
Definition clGetKernelSubGroupInfo : fundef := void_empty "clGetKernelSubGroupInfo".
Definition clGetKernelWorkGroupInfo : fundef := void_empty "clGetKernelWorkGroupInfo".
Definition clGetPlatformIDs : fundef := void_empty "clGetPlatformIDs".
Definition clGetPlatformInfo : fundef := void_empty "clGetPlatformInfo".
Definition clGetProgramBuildInfo : fundef := void_empty "clGetProgramBuildInfo".
Definition clReleaseCommandQueue : fundef := void_empty "clReleaseCommandQueue".
Definition clReleaseContext : fundef := void_empty "clReleaseContext".
Definition clReleaseEvent : fundef := void_empty "clReleaseEvent".
Definition clReleaseKernel : fundef := void_empty "clReleaseKernel".
Definition clReleaseMemObject : fundef := void_empty "clReleaseMemObject".
Definition clReleaseProgram : fundef := void_empty "clReleaseProgram".
Definition clSetKernelArg : fundef := void_empty "clSetKernelArg".
Definition clWaitForEvents : fundef := void_empty "clWaitForEvents".
Definition clGetExtensionFunctionAddressForPlatform : fundef := void_empty "clGetExtensionFunctionAddressForPlatform".

(** The external definitions of the unit, in source order. *)
Definition opencl_stub : list fundef :=
  [clBuildProgram; clCreateBuffer; clCreateCommandQueue; clCreateContext;
   clCreateImage; clCreateKernel; clCreateProgramWithSource;
   clCreateSubBuffer; clEnqueueBarrierWithWaitList; clEnqueueCopyBuffer;
   clEnqueueFillBuffer; clEnqueueMarkerWithWaitList; clEnqueueNDRangeKernel;
   clEnqueueReadBuffer; clEnqueueWriteBuffer; clFinish; clFlush;
   clGetDeviceIDs; clGetDeviceInfo; clGetEventProfilingInfo; clGetKernelInfo;
   clGetKernelSubGroupInfo; clGetKernelWorkGroupInfo; clGetPlatformIDs;
   clGetPlatformInfo; clGetProgramBuildInfo; clReleaseCommandQueue;
   clReleaseContext; clReleaseEvent; clReleaseKernel; clReleaseMemObject;
   clReleaseProgram; clSetKernelArg; clWaitForEvents;
   clGetExtensionFunctionAddressForPlatform].

(** ** Calls *)

(** A compound statement runs its items in order; a [return] or an error
    ends it early. *)
Fixpoint exec_block (b : list stmt) (s : State) : res (outcome State Value) :=
  match b with
  | [] => OK (Normal s)
  | i :: b' =>
      match exec_stmt i s with
      | OK (Normal s') => exec_block b' s'
      | OK (Return s' v) => OK (Return s' v)
      | Error msg => Error msg
      end
  end.

(** Arguments are stored into the declared parameters, pairwise; arguments
    beyond the declared parameters are dropped. *)
Fixpoint bind_params (ps : list string) (args : list Value) (s : State) : State :=
  match ps, args with
  | p :: ps', a :: args' => bind_params ps' args' (bind_param p a s)
  | _, _ => s
  end.

(** Calling a definition: bind the parameters, run the body.  Control that
    reaches the closing brace returns to the caller without a value. *)
Definition call (fd : fundef) (args : list Value) : M (option Value) :=
  fun s =>
    match exec_block (fn_body fd) (bind_params (fn_params fd) args s) with
    | OK (Normal s') => OK (s', None)
    | OK (Return s' v) => OK (s', v)
    | Error msg => Error msg
    end.

(** ** Symbol resolution *)

Fixpoint find_symbol (u : list fundef) (name : string) : option fundef :=
  match u with
  | [] => None
  | fd :: u' => if String.eqb (fn_name fd) name then Some fd else find_symbol u' name
  end.

Definition defines (u : list fundef) (name : string) : bool :=
  match find_symbol u name with Some _ => true | None => false end.

(** A call through a symbol name, as the consuming code makes it once it is
    linked against the unit [u]. *)
Definition call_symbol (u : list fundef) (name : string) (args : list Value)
  : M (option Value) :=
  fun s =>
    match find_symbol u name with
    | Some fd => call fd args s
    | None => Error ("undefined reference to " ++ name)
    end.

(** The creation entry points paired with the release entry point of the
    object they would create. *)
Definition create_release_pairs : list (fundef * fundef) :=
  [(clCreateBuffer, clReleaseMemObject);
   (clCreateContext, clReleaseContext);
   (clCreateKernel, clReleaseKernel);
   (clCreateProgramWithSource, clReleaseProgram);
   (clCreateCommandQueue, clReleaseCommandQueue)].

(** A straight-line run of calls, as a caller issues them one after the
    other; the results are collected in call order. *)
Fixpoint call_all (cs : list (fundef * list Value)) : M (list (option Value)) :=
  match cs with
  | [] => ret []
  | c :: cs' =>
      bind (call (fst c) (snd c)) (fun r =>
      bind (call_all cs') (fun rs => ret (r :: rs)))
  end.

End Unit.

Notation "x <- m ;; k" := (bind m (fun x => k))
  (at level 61, m at next level, right associativity).

(** The symbol names that code written against the OpenCL API refers to. *)
Definition required_symbols : list string :=
  ["clBuildProgram"; "clCreateBuffer"; "clCreateCommandQueue";
   "clCreateContext"; "clCreateImage"; "clCreateKernel";
   "clCreateProgramWithSource"; "clCreateSubBuffer";
   "clEnqueueBarrierWithWaitList"; "clEnqueueCopyBuffer";
   "clEnqueueFillBuffer"; "clEnqueueMarkerWithWaitList";
   "clEnqueueNDRangeKernel"; "clEnqueueReadBuffer"; "clEnqueueWriteBuffer";
   "clFinish"; "clFlush"; "clGetDeviceIDs"; "clGetDeviceInfo";
   "clGetEventProfilingInfo"; "clGetKernelInfo"; "clGetKernelSubGroupInfo";
   "clGetKernelWorkGroupInfo"; "clGetPlatformIDs"; "clGetPlatformInfo";
   "clGetProgramBuildInfo"; "clReleaseCommandQueue"; "clReleaseContext";
   "clReleaseEvent"; "clReleaseKernel"; "clReleaseMemObject";
   "clReleaseProgram"; "clSetKernelArg"; "clWaitForEvents";
   "clGetExtensionFunctionAddressForPlatform"].

(** ** A concrete machine

    Named integer cells and a log of printed numbers.  It is used to run the
    definitions above on actual states, and to tell the unit's functions
    apart from functions whose bodies do hold statements. *)

Inductive cell_stmt : Type :=
| Sset (x : string) (v : nat)
| Sprint (v : nat)
| Sreturn (v : option nat)
| Sabort.

Record cell_state : Type := {
  cells : list (string * nat);
  output : list nat
}.

Definition cell_exec (i : cell_stmt) (s : cell_state)
  : res (outcome cell_state nat) :=
  match i with
  | Sset x v => OK (Normal {| cells := (x, v) :: cells s; output := output s |})
  | Sprint v => OK (Normal {| cells := cells s; output := v :: output s |})
  | Sreturn v => OK (Return s v)
  | Sabort => Error "abort"
  end.

Definition cell_bind (p : string) (a : nat) (s : cell_state) : cell_state :=
  {| cells := (p, a) :: cells s; output := output s |}.

Definition cell_machine : Machine :=
  {| State := cell_state; Value := nat; stmt := cell_stmt;
     exec_stmt := cell_exec; bind_param := cell_bind |}.

Definition st0 : @State cell_machine :=
  {| cells := [("n", 4)]; output := [9] |}.

(** [int probe(x) { print 1; return 0; }] and [void crash() { abort; }]:
    neither belongs to the unit. *)
Definition probe : @fundef cell_machine :=
  @Build_fundef cell_machine "probe" Tint ["x"] [Sprint 1; Sreturn (Some 0)].

Definition crash : @fundef cell_machine :=
  @Build_fundef cell_machine "crash" Tvoid [] [Sabort].

(** * Properties *)

Example probe_has_effect :
  call probe [7] st0
  = OK ({| cells := [("x", 7); ("n", 4)]; output := [1; 9] |}, Some 0).
Proof. reflexivity. Qed.

Example crash_fails : call crash [] st0 = Error "abort".
Proof. reflexivity. Qed.

Example clFinish_runs : call (mach := cell_machine) clFinish [1; 2] st0 = OK (st0, None).
Proof. reflexivity. Qed.

Example link_miss :
  call_symbol (mach := cell_machine) opencl_stub "clRetainEvent" [] st0
  = Error "undefined reference to clRetainEvent".
Proof. reflexivity. Qed.

Ltac pick_member := simpl; repeat (first [left; reflexivity | right]).

Section UnitFacts.
Context {mach : Machine}.

Lemma bind_params_nil (args : list Value) (s : State) :
  bind_params [] args s = s.
Proof. destruct args; reflexivity. Qed.

Lemma call_no_params_no_body (fd : fundef) (args : list Value) (s : State) :
  fn_params fd = [] -> fn_body fd = [] -> call fd args s = OK (s, None).
Proof.
  intros Hp Hb. unfold call. rewrite Hp, Hb, bind_params_nil. reflexivity.
Qed.

Lemma stub_shape (fd : fundef) :
  In fd opencl_stub -> fd = void_empty (fn_name fd).
Proof.
  unfold opencl_stub. intros H.
  repeat (destruct H as [H | H]; [subst fd; reflexivity | ]).
  destruct H.
Qed.

Lemma stub_fields (fd : fundef) :
  In fd opencl_stub ->
  fn_return fd = Tvoid /\ fn_params fd = [] /\ fn_body fd = [].
Proof.
  intros H. rewrite (stub_shape fd H). repeat split.
Qed.

Lemma call_stub (fd : fundef) (args : list Value) (s : State) :
  In fd opencl_stub -> call fd args s = OK (s, None).
Proof.
  intros H. destruct (stub_fields fd H) as (_ & Hp & Hb).
  now apply call_no_params_no_body.
Qed.

Lemma find_symbol_In (u : list fundef) (name : string) (fd : fundef) :
  find_symbol u name = Some fd -> In fd u /\ fn_name fd = name.
Proof.
  induction u as [| d u IH]; simpl; [discriminate | ].
  destruct (String.eqb (fn_name d) name) eqn:E.
  - intros [= <-]. split; [now left | now apply String.eqb_eq].
  - intros H. destruct (IH H). split; [now right | assumption].
Qed.

Lemma defines_iff (u : list fundef) (name : string) :
  defines u name = true <-> In name (map fn_name u).
Proof.
  unfold defines. induction u as [| d u IH]; simpl.
  - split; [discriminate | tauto].
  - destruct (String.eqb (fn_name d) name) eqn:E.
    + split; [intros _ | reflexivity]. left. now apply String.eqb_eq.
    + rewrite IH. split; [now right | ].
      intros [H | H]; [ | assumption].
      apply String.eqb_eq in H. congruence.
Qed.

Lemma defines_find (u : list fundef) (name : string) :
  In name (map fn_name u) -> exists fd, find_symbol u name = Some fd.
Proof.
  intros H. apply defines_iff in H. unfold defines in H.
  destruct (find_symbol u name) as [fd | ]; [now exists fd | discriminate].
Qed.

Lemma call_symbol_stub (name : string) (args : list Value) (s : State) :
  In name (map fn_name opencl_stub) ->
  call_symbol opencl_stub name args s = OK (s, None).
Proof.
  intros H. destruct (defines_find _ _ H) as [fd Hfd].
  unfold call_symbol. rewrite Hfd.
  apply call_stub. now apply (find_symbol_In _ _ _ Hfd).
Qed.

End UnitFacts.

(** ** The claims about the unit *)

(** C1 (frame): a call to any function defined in the unit, with any
    arguments and in any program state, returns in that very state: nothing
    of the state is modified and nothing observable is added to it. *)
Theorem stub_call_leaves_state_unchanged :
  forall (mach : Machine) (fd : fundef), In fd opencl_stub ->
  forall (args : list Value) (s : State), call fd args s = OK (s, None).
Proof. intros mach fd H args s. now apply call_stub. Qed.

Lemma stub_call_leaves_state_unchanged_witness :
  In clEnqueueWriteBuffer (@opencl_stub cell_machine)
  /\ call (mach := cell_machine) clEnqueueWriteBuffer [3; 5] st0 = OK (st0, None).
Proof.
  split.
  - pick_member.
  - apply (stub_call_leaves_state_unchanged cell_machine clEnqueueWriteBuffer).
    pick_member.
Defined.

(** C2 (no failure): every call to a symbol that the unit defines succeeds;
    the result is never an error, whatever the arguments and the state. *)
Theorem stub_call_always_succeeds :
  forall (mach : Machine) (name : string), In name (map fn_name opencl_stub) ->
  forall (args : list Value) (s : State),
    is_OK (call_symbol opencl_stub name args s) = true
    /\ (exists r, call_symbol opencl_stub name args s = OK r)
    /\ (forall msg, call_symbol opencl_stub name args s <> Error msg).
Proof.
  intros mach name H args s. rewrite (call_symbol_stub name args s H).
  split; [reflexivity | split; [now eexists | discriminate]].
Qed.

Lemma stub_call_always_succeeds_witness :
  In "clGetPlatformIDs" (map fn_name (@opencl_stub cell_machine))
  /\ is_OK (call_symbol (mach := cell_machine) opencl_stub "clGetPlatformIDs" [1] st0)
     = true.
Proof.
  split.
  - pick_member.
  - apply (stub_call_always_succeeds cell_machine "clGetPlatformIDs").
    pick_member.
Defined.

(** C3 (termination): the body of every function of the unit holds no
    statement at all, hence no loop, no branch and no call, and every
    invocation returns a result. *)
Theorem stub_call_terminates :
  forall (mach : Machine) (fd : fundef), In fd opencl_stub ->
  fn_body fd = []
  /\ forall (args : list Value) (s : State),
       exists (s' : State) (v : option Value), call fd args s = OK (s', v).
Proof.
  intros mach fd H. split.
  - apply (stub_fields fd H).
  - intros args s. exists s, None. now apply call_stub.
Qed.

Lemma stub_call_terminates_witness :
  In clFinish (@opencl_stub cell_machine)
  /\ fn_body (mach := cell_machine) clFinish = []
  /\ exists s' v, call (mach := cell_machine) clFinish [] st0 = OK (s', v).
Proof.
  assert (Hin : In clFinish (@opencl_stub cell_machine)) by pick_member.
  split; [exact Hin | ].
  destruct (stub_call_terminates cell_machine clFinish Hin) as [Hb Hc].
  split; [exact Hb | exact (Hc [] st0)].
Defined.

(** C4 (symbols): the symbol names defined by the unit are exactly the 35
    required OpenCL names, each once, compared case-sensitively, and each
    required name resolves to a definition that can be called. *)
Theorem defined_symbols_are_exactly_the_required :
  forall (mach : Machine),
  map fn_name opencl_stub = required_symbols
  /\ List.length required_symbols = 35
  /\ NoDup required_symbols
  /\ (forall name, defines opencl_stub name = true <-> In name required_symbols)
  /\ Forall (fun name =>
       exists fd, find_symbol opencl_stub name = Some fd
                  /\ fn_name fd = name
                  /\ forall args s, exists r, call fd args s = OK r)
       required_symbols
  /\ defines opencl_stub "clfinish" = false.
Proof.
  intros mach.
  assert (Hnames : map fn_name opencl_stub = required_symbols) by reflexivity.
  split; [exact Hnames | ].
  split; [reflexivity | ].
  split.
  { assert (E : nodup string_dec required_symbols = required_symbols)
      by (vm_compute; reflexivity).
    rewrite <- E. apply NoDup_nodup. }
  split.
  { intros name. rewrite <- Hnames. apply defines_iff. }
  split; [ | reflexivity].
  apply Forall_forall. intros name Hin. rewrite <- Hnames in Hin.
  destruct (defines_find _ _ Hin) as [fd Hfd].
  destruct (find_symbol_In _ _ _ Hfd) as [Hmem Hname].
  exists fd. split; [exact Hfd | split; [exact Hname | ]].
  intros args s. exists (s, None). now apply call_stub.
Qed.

(** C5 (invariants): every predicate on program states is preserved by
    every function of the unit: if it holds before the call, the call
    returns and it holds of the state after the call. *)
Theorem stub_call_preserves_every_invariant :
  forall (mach : Machine) (P : State -> Prop) (fd : fundef),
  In fd opencl_stub ->
  forall (args : list Value) (s : State), P s ->
  exists (s' : State) (v : option Value), call fd args s = OK (s', v) /\ P s'.
Proof.
  intros mach P fd H args s HP. exists s, None.
  split; [now apply call_stub | exact HP].
Qed.

Lemma stub_call_preserves_every_invariant_witness :
  In clSetKernelArg (@opencl_stub cell_machine)
  /\ output st0 = [9]
  /\ exists s' v,
       call (mach := cell_machine) clSetKernelArg [0; 8; 2] st0 = OK (s', v)
       /\ output s' = [9].
Proof.
  assert (Hin : In clSetKernelArg (@opencl_stub cell_machine)) by pick_member.
  split; [exact Hin | ]. split; [reflexivity | ].
  apply (stub_call_preserves_every_invariant cell_machine
           (fun s => output s = [9]) clSetKernelArg Hin [0; 8; 2] st0).
  reflexivity.
Defined.

(** C6 (idempotence): calling a function of the unit twice in a row gives
    the same state and the same result as calling it once. *)
Theorem stub_call_idempotent :
  forall (mach : Machine) (fd : fundef), In fd opencl_stub ->
  forall (args : list Value) (s : State),
    (_ <- call fd args ;; call fd args) s = call fd args s.
Proof.
  intros mach fd H args s. unfold bind.
  rewrite (call_stub fd args s H). now apply call_stub.
Qed.

Lemma stub_call_idempotent_witness :
  In clFlush (@opencl_stub cell_machine)
  /\ (_ <- call (mach := cell_machine) clFlush [6] ;; call (mach := cell_machine) clFlush [6]) st0
     = call (mach := cell_machine) clFlush [6] st0.
Proof.
  split.
  - pick_member.
  - apply (stub_call_idempotent cell_machine clFlush). pick_member.
Defined.

(** C7 (commutation): two calls to functions of the unit can be swapped:
    running one and then the other gives the same final state, and the same
    pair of results, in either order. *)
Theorem stub_calls_commute :
  forall (mach : Machine) (f g : fundef),
  In f opencl_stub -> In g opencl_stub ->
  forall (a b : list Value) (s : State),
    (r1 <- call f a ;; r2 <- call g b ;; ret (r1, r2)) s
    = (r2 <- call g b ;; r1 <- call f a ;; ret (r1, r2)) s.
Proof.
  intros mach f g Hf Hg a b s. unfold bind.
  rewrite (call_stub f a s Hf), (call_stub g b s Hg). cbv beta iota.
  rewrite (call_stub f a s Hf). reflexivity.
Qed.

Lemma stub_calls_commute_witness :
  In clCreateImage (@opencl_stub cell_machine)
  /\ In clReleaseEvent (@opencl_stub cell_machine)
  /\ (r1 <- call (mach := cell_machine) clCreateImage [1] ;;
      r2 <- call (mach := cell_machine) clReleaseEvent [2] ;; ret (r1, r2)) st0
     = (r2 <- call (mach := cell_machine) clReleaseEvent [2] ;;
        r1 <- call (mach := cell_machine) clCreateImage [1] ;; ret (r1, r2)) st0.
Proof.
  split; [pick_member | ]. split; [pick_member | ].
  apply (stub_calls_commute cell_machine clCreateImage clReleaseEvent);
    pick_member.
Defined.

(** C8 (determinism, arguments ignored): two calls to the same function of
    the unit from equal states give equal states and equal results, even
    when the argument lists differ. *)
Theorem stub_call_ignores_arguments :
  forall (mach : Machine) (fd : fundef), In fd opencl_stub ->
  forall (args1 args2 : list Value) (s1 s2 : State), s1 = s2 ->
    call fd args1 s1 = call fd args2 s2.
Proof.
  intros mach fd H args1 args2 s1 s2 <-.
  rewrite (call_stub fd args1 s1 H). symmetry. now apply call_stub.
Qed.

Lemma stub_call_ignores_arguments_witness :
  In clGetDeviceInfo (@opencl_stub cell_machine)
  /\ st0 = st0
  /\ call (mach := cell_machine) clGetDeviceInfo [] st0
     = call (mach := cell_machine) clGetDeviceInfo [4; 4; 1] st0.
Proof.
  split; [pick_member | ]. split; [reflexivity | ].
  apply (stub_call_ignores_arguments cell_machine clGetDeviceInfo);
    [pick_member | reflexivity].
Defined.

(** C9 (void): every function of the unit is declared with return type
    [void], its call returns without a value, and therefore no call ever
    hands a status code or an object handle back to the caller. *)
Theorem stub_returns_no_value :
  forall (mach : Machine) (fd : fundef), In fd opencl_stub ->
  fn_return fd = Tvoid
  /\ (forall (args : list Value) (s : State),
        exists s', call fd args s = OK (s', None))
  /\ (forall (args : list Value) (s s' : State) (v : Value),
        call fd args s <> OK (s', Some v)).
Proof.
  intros mach fd H. split; [apply (stub_fields fd H) | ]. split.
  - intros args s. exists s. now apply call_stub.
  - intros args s s' v. rewrite (call_stub fd args s H). discriminate.
Qed.

Lemma stub_returns_no_value_witness :
  In clCreateBuffer (@opencl_stub cell_machine)
  /\ fn_return (mach := cell_machine) clCreateBuffer = Tvoid
  /\ call (mach := cell_machine) clCreateBuffer [1; 64] st0 <> OK (st0, Some 0).
Proof.
  assert (Hin : In clCreateBuffer (@opencl_stub cell_machine)) by pick_member.
  split; [exact Hin | ].
  destruct (stub_returns_no_value cell_machine clCreateBuffer Hin)
    as (Hret & _ & Hno).
  split; [exact Hret | exact (Hno [1; 64] st0 st0 0)].
Defined.

(** C10 (create/release round trip): for each of the five creation entry
    points and its release entry point, the creation call, the release call
    and the two in sequence all return in the state they started from, so
    nothing is acquired and nothing is freed. *)
Theorem create_release_round_trip :
  forall (mach : Machine) (p : fundef * fundef), In p create_release_pairs ->
  forall (a b : list Value) (s : State),
    (_ <- call (fst p) a ;; call (snd p) b) s = OK (s, None)
    /\ call (fst p) a s = OK (s, None)
    /\ call (snd p) b s = OK (s, None).
Proof.
  intros mach p H a b s.
  assert (Hc : forall args, call (fst p) args s = OK (s, None)
                            /\ call (snd p) args s = OK (s, None)).
  { unfold create_release_pairs in H. simpl in H.
    repeat (destruct H as [H | H]; [subst p; split; reflexivity | ]).
    destruct H. }
  destruct (Hc a) as [Ha _]. destruct (Hc b) as [_ Hb].
  unfold bind. rewrite Ha. cbv beta iota. rewrite Hb. repeat split.
Qed.

Lemma create_release_round_trip_witness :
  In (clCreateKernel, clReleaseKernel) (@create_release_pairs cell_machine)
  /\ (_ <- call (mach := cell_machine) clCreateKernel [2] ;;
      call (mach := cell_machine) clReleaseKernel [2]) st0 = OK (st0, None).
Proof.
  assert (Hin : In (clCreateKernel, clReleaseKernel)
                    (@create_release_pairs cell_machine)) by pick_member.
  split; [exact Hin | ].
  exact (proj1 (create_release_round_trip cell_machine
                  (clCreateKernel, clReleaseKernel) Hin [2] [2] st0)).
Defined.

(** ** Further properties of the unit *)

(** X1 (call sequences): a run of any number of calls to functions of the
    unit, in any order and with any arguments, returns in the state it
    started from, with one empty result per call. *)
Theorem stub_call_sequence_is_noop :
  forall (mach : Machine) (cs : list (fundef * list Value)),
  Forall (fun c => In (fst c) opencl_stub) cs ->
  forall (s : State), call_all cs s = OK (s, repeat None (List.length cs)).
Proof.
  intros mach cs Hall s. induction Hall as [| c cs Hc _ IH]; simpl.
  - reflexivity.
  - unfold bind. rewrite (call_stub (fst c) (snd c) s Hc). cbv beta iota.
    rewrite IH. reflexivity.
Qed.

Lemma stub_call_sequence_is_noop_witness :
  Forall (fun c => In (fst c) (@opencl_stub cell_machine))
    [(clCreateContext, [1]); (clFinish, []); (clCreateContext, [2; 3])]
  /\ call_all (mach := cell_machine)
       [(clCreateContext, [1]); (clFinish, []); (clCreateContext, [2; 3])] st0
     = OK (st0, [None; None; None]).
Proof.
  assert (Hall : Forall (fun c => In (fst c) (@opencl_stub cell_machine))
            [(clCreateContext, [1]); (clFinish, []); (clCreateContext, [2; 3])]).
  { repeat (apply Forall_cons; [pick_member | ]). apply Forall_nil. }
  split; [exact Hall | ].
  exact (stub_call_sequence_is_noop cell_machine _ Hall st0).
Defined.

(** X2 (erasure): a call to a function of the unit placed between two
    arbitrary pieces of code can be removed without changing what the whole
    computes, whether the surrounding code succeeds or fails. *)
Theorem stub_call_erasable :
  forall (mach : Machine) (fd : fundef), In fd opencl_stub ->
  forall (A B : Type) (m : M A) (k : A -> M B) (args : list Value) (s : State),
    (x <- m ;; _ <- call fd args ;; k x) s = (x <- m ;; k x) s.
Proof.
  intros mach fd H A B m k args s. unfold bind.
  destruct (m s) as [[s' x] | msg]; [ | reflexivity].
  rewrite (call_stub fd args s' H). reflexivity.
Qed.

Lemma stub_call_erasable_witness :
  In clEnqueueNDRangeKernel (@opencl_stub cell_machine)
  /\ (x <- call probe [7] ;;
      _ <- call (mach := cell_machine) clEnqueueNDRangeKernel [5] ;;
      call crash [])
       st0
     = (x <- call probe [7] ;; call crash []) st0.
Proof.
  assert (Hin : In clEnqueueNDRangeKernel (@opencl_stub cell_machine))
    by pick_member.
  split; [exact Hin | ].
  exact (stub_call_erasable cell_machine clEnqueueNDRangeKernel Hin _ _
           (call probe [7]) (fun _ => call crash []) [5] st0).
Defined.

(** X3 (commutation with other code): a call to a function of the unit can
    be moved before or after any other computation; the state, both results
    and a failure of the other computation come out the same. *)
Theorem stub_call_commutes_with_any_code :
  forall (mach : Machine) (fd : fundef), In fd opencl_stub ->
  forall (A : Type) (m : M A) (args : list Value) (s : State),
    (r <- call fd args ;; x <- m ;; ret (r, x)) s
    = (x <- m ;; r <- call fd args ;; ret (r, x)) s.
Proof.
  intros mach fd H A m args s. unfold bind.
  rewrite (call_stub fd args s H). cbv beta iota.
  destruct (m s) as [[s' x] | msg]; [ | reflexivity].
  rewrite (call_stub fd args s' H). reflexivity.
Qed.

Lemma stub_call_commutes_with_any_code_witness :
  In clReleaseProgram (@opencl_stub cell_machine)
  /\ (r <- call (mach := cell_machine) clReleaseProgram [1] ;;
      x <- call probe [7] ;; ret (r, x)) st0
     = (x <- call probe [7] ;;
        r <- call (mach := cell_machine) clReleaseProgram [1] ;; ret (r, x)) st0.
Proof.
  assert (Hin : In clReleaseProgram (@opencl_stub cell_machine)) by pick_member.
  split; [exact Hin | ].
  exact (stub_call_commutes_with_any_code cell_machine clReleaseProgram Hin _
           (call probe [7]) [1] st0).
Defined.


